(** * Recorded cases and promoted-name resolution (openmdao/recorders/case.py)

    A shallow embedding of [Case], [DriverCase], [SystemCase], [SolverCase]
    and [PromotedToAbsoluteMap].  Python exceptions are modelled by an
    error monad, dictionaries by [gmap], tuples and array rows by lists.
    A container of values is [None], a dict, or one row of a structured
    array; the two that can be subscripted differ in the exception they
    raise at a missing name.
    Each class lives in a module of its name; [init] is its [__init__] and
    [getitem] its [__getitem__]. *)

From Stdlib Require Import ZArith Floats.
From stdpp Require Import base option list strings gmap.

Local Open Scope string_scope.

(** ** Exceptions *)

(** The exceptions the modelled expressions can raise: a missing dictionary
    key, an out-of-range sequence index, subscripting [None], and a field
    name that a row of a structured array does not have. *)
Inductive exn := KeyError | IndexError | TypeError | ValueError.

Inductive result (A : Type) : Type :=
| Ok (a : A)
| Raise (e : exn).
Arguments Ok {A} a.
Arguments Raise {A} e.

#[global] Instance exn_eq_dec : EqDecision exn.
Proof. solve_decision. Defined.

#[global] Instance result_ret : MRet result := fun A a => Ok a.
#[global] Instance result_bind : MBind result := fun A B f m =>
  match m with
  | Ok a => f a
  | Raise e => Raise e
  end.

(** ** Python subscripting *)

(** [d[k]] on a dict. *)
Definition dict_getitem {A} (d : gmap string A) (k : string) : result A :=
  match d !! k with
  | Some v => Ok v
  | None => Raise KeyError
  end.

(** [t[i]] on a tuple or on the rows of an array, for an index [i >= 0]. *)
Definition seq_getitem {A} (t : list A) (i : nat) : result A :=
  match t !! i with
  | Some v => Ok v
  | None => Raise IndexError
  end.

(** Truth value of a tuple-or-None, as tested by [x if names else None]. *)
Definition truthy {A} (names : option (list A)) : bool :=
  match names with
  | Some (_ :: _) => true
  | _ => false
  end.

(** A container of values other than [None]: a dict, or one row of a
    structured array, which is what [a[0]] is.  Both are subscripted by
    name. *)
Inductive mapping (V : Type) : Type :=
| PyDict (items : gmap string V)
| NpRow (fields : gmap string V).
Arguments PyDict {V} items.
Arguments NpRow {V} fields.

(** The values a container holds, by name. *)
Definition items {V} (c : mapping V) : gmap string V :=
  match c with
  | PyDict m | NpRow m => m
  end.

#[global] Instance mapping_lookup {V} : Lookup string V (mapping V) :=
  fun k c => items c !! k.

(** The empty container [{}] is a dict. *)
#[global] Instance mapping_empty {V} : Empty (mapping V) := PyDict ∅.

(** [c[k]]: at a name it does not hold, a dict raises [KeyError] and a row
    of a structured array raises [ValueError] (no field of that name). *)
Definition mapping_getitem {V} (c : mapping V) (k : string) : result V :=
  match c !! k with
  | Some v => Ok v
  | None => Raise (match c with
                   | PyDict _ => KeyError
                   | NpRow _ => ValueError
                   end)
  end.

(** [values[k]] where [values] is [None] or a container: subscripting
    [None] is a type error. *)
Definition values_getitem {V} (values : option (mapping V)) (k : string)
    : result V :=
  match values with
  | None => Raise TypeError
  | Some c => mapping_getitem c k
  end.

(** The promoted-to-absolute table: direction, then promoted name, then the
    tuple of absolute names. *)
Abbreviation alias_table := (gmap string (gmap string (list string))).

(** ** Source arrays *)

(** A one-dimensional array as the constructors use it: [dtype.names] is
    [None] or the tuple of field names, and each row maps a field name to
    its value. *)
Record ndarray (V : Type) : Type := {
  dtype_names : option (list string);
  rows : list (gmap string V)
}.
Arguments dtype_names {V} _.
Arguments rows {V} _.

(** The expression [a[0] if a.dtype.names else None]. *)
Definition row0_or_None {V} (a : ndarray V) : result (option (mapping V)) :=
  if truthy (dtype_names a) then
    row ← seq_getitem (rows a) 0; mret (Some (NpRow row))
  else mret None.

(** ** PromotedToAbsoluteMap *)

Module PromotedToAbsoluteMap.
Section Def.
Context {V : Type}.

Record t : Type := {
  _values : option (mapping V);
  _prom2abs : alias_table;
  _input_output : string
}.

(** [__init__(self, values, prom2abs, output=True)]; an omitted [output]
    is [None] here. *)
Definition init (values : option (mapping V)) (prom2abs : alias_table)
    (output : option bool) : result t :=
  mret {| _values := values;
          _prom2abs := prom2abs;
          _input_output := if default true output then "output" else "input" |}.

(** [self._values[self._prom2abs[self._input_output][key][0]]]: the index
    expression is evaluated before [_values] is subscripted. *)
Definition getitem (self : t) (key : string) : result V :=
  half ← dict_getitem (_prom2abs self) (_input_output self);
  entry ← dict_getitem half key;
  abs ← seq_getitem entry 0;
  values_getitem (_values self) abs.

End Def.
Arguments t V : clear implicits.
End PromotedToAbsoluteMap.

(** ** Case *)

Module Case.

Record t : Type := {
  filename : string;
  counter : Z;
  iteration_coordinate : string;
  timestamp : float;
  success : string;
  msg : string
}.

Definition init (filename : string) (counter : Z)
    (iteration_coordinate : string) (timestamp : float) (success msg : string)
    : result t :=
  mret {| filename := filename;
          counter := counter;
          iteration_coordinate := iteration_coordinate;
          timestamp := timestamp;
          success := success;
          msg := msg |}.

End Case.

(** ** DriverCase *)

Module DriverCase.
Section Def.
Context {V : Type}.

Record t : Type := {
  base : Case.t;
  desvars : PromotedToAbsoluteMap.t V;
  responses : PromotedToAbsoluteMap.t V;
  objectives : PromotedToAbsoluteMap.t V;
  constraints : PromotedToAbsoluteMap.t V;
  sysincludes : PromotedToAbsoluteMap.t V
}.

Definition init (filename : string) (counter : Z)
    (iteration_coordinate : string) (timestamp : float) (success msg : string)
    (desvars responses objectives constraints sysincludes : ndarray V)
    (prom2abs : alias_table) : result t :=
  super ← Case.init filename counter iteration_coordinate timestamp success msg;
  v1 ← row0_or_None desvars;
  m1 ← PromotedToAbsoluteMap.init v1 prom2abs None;
  v2 ← row0_or_None responses;
  m2 ← PromotedToAbsoluteMap.init v2 prom2abs None;
  v3 ← row0_or_None objectives;
  m3 ← PromotedToAbsoluteMap.init v3 prom2abs None;
  v4 ← row0_or_None constraints;
  m4 ← PromotedToAbsoluteMap.init v4 prom2abs None;
  v5 ← row0_or_None sysincludes;
  m5 ← PromotedToAbsoluteMap.init v5 prom2abs None;
  mret {| base := super;
          desvars := m1;
          responses := m2;
          objectives := m3;
          constraints := m4;
          sysincludes := m5 |}.

End Def.
Arguments t V : clear implicits.
End DriverCase.

(** ** SystemCase *)

Module SystemCase.
Section Def.
Context {V : Type}.

Record t : Type := {
  base : Case.t;
  inputs : PromotedToAbsoluteMap.t V;
  outputs : PromotedToAbsoluteMap.t V;
  residuals : PromotedToAbsoluteMap.t V
}.

Definition init (filename : string) (counter : Z)
    (iteration_coordinate : string) (timestamp : float) (success msg : string)
    (inputs outputs residuals : ndarray V)
    (prom2abs : alias_table) : result t :=
  super ← Case.init filename counter iteration_coordinate timestamp success msg;
  v1 ← row0_or_None inputs;
  m1 ← PromotedToAbsoluteMap.init v1 prom2abs (Some false);
  v2 ← row0_or_None outputs;
  m2 ← PromotedToAbsoluteMap.init v2 prom2abs None;
  v3 ← row0_or_None residuals;
  m3 ← PromotedToAbsoluteMap.init v3 prom2abs None;
  mret {| base := super;
          inputs := m1;
          outputs := m2;
          residuals := m3 |}.

End Def.
Arguments t V : clear implicits.
End SystemCase.

(** ** SolverCase *)

Module SolverCase.
Section Def.
(** [E] is the type of the recorded solver errors. *)
Context {V E : Type}.

Record t : Type := {
  base : Case.t;
  abs_err : E;
  rel_err : E;
  outputs : PromotedToAbsoluteMap.t V;
  residuals : PromotedToAbsoluteMap.t V
}.

Definition init (filename : string) (counter : Z)
    (iteration_coordinate : string) (timestamp : float) (success msg : string)
    (abs_err rel_err : E) (outputs residuals : ndarray V)
    (prom2abs : alias_table) : result t :=
  super ← Case.init filename counter iteration_coordinate timestamp success msg;
  v1 ← row0_or_None outputs;
  m1 ← PromotedToAbsoluteMap.init v1 prom2abs None;
  v2 ← row0_or_None residuals;
  m2 ← PromotedToAbsoluteMap.init v2 prom2abs None;
  mret {| base := super;
          abs_err := abs_err;
          rel_err := rel_err;
          outputs := m1;
          residuals := m2 |}.

End Def.
Arguments t V E : clear implicits.
End SolverCase.

(** ** Vocabulary of the properties *)

(** The entry a lookup consults: the one recorded for [key] in the
    [direction] half of the table. *)
Definition alias_entry (prom2abs : alias_table) (direction key : string)
    : option (list string) :=
  prom2abs !! direction ≫= (.!! key).

(** The absolute key an entry resolves to: its first element. *)
Definition resolved_key (prom2abs : alias_table) (direction key : string)
    : option string :=
  alias_entry prom2abs direction key ≫= head.

(** A key is absent from a container that is absent, or that is a mapping
    without that key. *)
Definition key_absent {V} (values : option (mapping V)) (a : string) : Prop :=
  match values with
  | None => True
  | Some m => m !! a = None
  end.

(** [a[0][name]]: the field [name] read directly from the source array. *)
Definition field_read {V} (a : ndarray V) (name : string) : result V :=
  row ← seq_getitem (rows a) 0; mapping_getitem (NpRow row) name.

(** Lookup failure as the specification words it: key-not-found exactly
    when the alias entry is missing or the resolved key is absent from the
    container. *)
Definition fails_iff_missing {V} (r : PromotedToAbsoluteMap.t V) (key : string)
    : Prop :=
  PromotedToAbsoluteMap.getitem r key = Raise KeyError ↔
  alias_entry (PromotedToAbsoluteMap._prom2abs r)
              (PromotedToAbsoluteMap._input_output r) key = None
  ∨ ∃ a, resolved_key (PromotedToAbsoluteMap._prom2abs r)
                      (PromotedToAbsoluteMap._input_output r) key = Some a
         ∧ key_absent (PromotedToAbsoluteMap._values r) a.

(** Every lookup on a resolver built over an empty or absent container is a
    key-not-found failure, as the specification words it. *)
Definition no_data_is_key_error {V} (values : option (mapping V))
    (prom2abs : alias_table) (output : option bool) (key : string) : Prop :=
  values = None ∨ values = Some ∅ →
  ∃ r, PromotedToAbsoluteMap.init values prom2abs output = Ok r
       ∧ PromotedToAbsoluteMap.getitem r key = Raise KeyError.

(** [wraps a prom2abs output r]: [r] is the resolver built by
    [PromotedToAbsoluteMap(a[0] if a.dtype.names else None, prom2abs, output)]. *)
Definition wraps {V} (a : ndarray V) (prom2abs : alias_table)
    (output : option bool) (r : PromotedToAbsoluteMap.t V) : Prop :=
  ∃ v, row0_or_None a = Ok v
       ∧ PromotedToAbsoluteMap.init v prom2abs output = Ok r.

(** Any of the four kinds of case. *)
Inductive any_case (V E : Type) : Type :=
| IsCase (c : Case.t)
| IsDriver (c : DriverCase.t V)
| IsSystem (c : SystemCase.t V)
| IsSolver (c : SolverCase.t V E).
Arguments IsCase {V E} c.
Arguments IsDriver {V E} c.
Arguments IsSystem {V E} c.
Arguments IsSolver {V E} c.

(** The [Case] part of a case. *)
Definition base_of {V E} (x : any_case V E) : Case.t :=
  match x with
  | IsCase c => c
  | IsDriver c => DriverCase.base c
  | IsSystem c => SystemCase.base c
  | IsSolver c => SolverCase.base c
  end.

(** The resolvers a case carries, by attribute name. *)
Definition resolvers_of {V E} (x : any_case V E)
    : list (string * PromotedToAbsoluteMap.t V) :=
  match x with
  | IsCase _ => []
  | IsDriver c =>
      [("desvars", DriverCase.desvars c);
       ("responses", DriverCase.responses c);
       ("objectives", DriverCase.objectives c);
       ("constraints", DriverCase.constraints c);
       ("sysincludes", DriverCase.sysincludes c)]
  | IsSystem c =>
      [("inputs", SystemCase.inputs c);
       ("outputs", SystemCase.outputs c);
       ("residuals", SystemCase.residuals c)]
  | IsSolver c =>
      [("outputs", SolverCase.outputs c);
       ("residuals", SolverCase.residuals c)]
  end.

(** [constructed_from f c i t s m x]: [x] is what one of the four
    constructors returned when given these six base arguments. *)
Inductive constructed_from {V E} (f : string) (c : Z) (i : string) (t : float)
    (s m : string) : any_case V E → Prop :=
| built_Case x :
    Case.init f c i t s m = Ok x →
    constructed_from f c i t s m (IsCase x)
| built_DriverCase dv rs ob cn si p2a x :
    DriverCase.init f c i t s m dv rs ob cn si p2a = Ok x →
    constructed_from f c i t s m (IsDriver x)
| built_SystemCase ins outs res p2a x :
    SystemCase.init f c i t s m ins outs res p2a = Ok x →
    constructed_from f c i t s m (IsSystem x)
| built_SolverCase ae re outs res p2a x :
    SolverCase.init f c i t s m ae re outs res p2a = Ok x →
    constructed_from f c i t s m (IsSolver x).

(** The expression [a[0] if a.dtype.names else None] has a value: the array
    has no named fields, or it has a first row. *)
Definition has_row0 {V} (a : ndarray V) : bool :=
  negb (truthy (dtype_names a)) || (if rows a is [] then false else true).

(** Two arrays that the constructors cannot tell apart: [dtype.names] has
    the same truth value, and when it is true the first rows are the same
    (or both missing). *)
Definition same_row0 {V} (a a' : ndarray V) : Prop :=
  truthy (dtype_names a') = truthy (dtype_names a)
  ∧ (truthy (dtype_names a) = true → rows a' !! 0 = rows a !! 0).

(** [constructed_over p2a x]: [x] is what the constructor of a driver,
    system or solver case returned when given the table [p2a]. *)
Inductive constructed_over {V E} (p2a : alias_table) : any_case V E → Prop :=
| over_DriverCase f c i t s m dv rs ob cn si x :
    DriverCase.init f c i t s m dv rs ob cn si p2a = Ok x →
    constructed_over p2a (IsDriver x)
| over_SystemCase f c i t s m ins outs res x :
    SystemCase.init f c i t s m ins outs res p2a = Ok x →
    constructed_over p2a (IsSystem x)
| over_SolverCase f c i t s m ae re outs res x :
    SolverCase.init f c i t s m ae re outs res p2a = Ok x →
    constructed_over p2a (IsSolver x).

(** ** Concrete data of the specification's example *)

Definition example_table : alias_table :=
  {[ "output" := {[ "x" := ["comp.x"] ]} ]}.

Definition example_values : gmap string float :=
  {[ "comp.x" := 3.5%float ]}.

(** An array with one named field and one row, and one without fields. *)
Definition example_array : ndarray float :=
  {| dtype_names := Some ["comp.x"]; rows := [example_values] |}.

Definition example_no_fields : ndarray float :=
  {| dtype_names := None; rows := [] |}.

(** Two promoted names for one absolute name, the first with a longer
    entry; an array with a second row; an array with a field and no row. *)
Definition example_aliases : alias_table :=
  {[ "output" := <[ "x" := ["comp.x"; "sub.comp.x"] ]> {[ "y" := ["comp.x"] ]} ]}.

Definition example_two_rows : ndarray float :=
  {| dtype_names := Some ["comp.x"; "comp.z"];
     rows := [example_values; {[ "comp.x" := 1.5%float ]}] |}.

Definition example_no_rows : ndarray float :=
  {| dtype_names := Some ["comp.x"]; rows := [] |}.

(** An array whose only field is not the one the example table names. *)
Definition example_other_field : ndarray float :=
  {| dtype_names := Some ["comp.z"]; rows := [{[ "comp.z" := 1.5%float ]}] |}.

(** Splits a successful constructor run at each [a[0] if ... else None]. *)
Ltac split_rows H :=
  simpl in H;
  repeat match type of H with
  | context [row0_or_None ?a] =>
      let v := fresh "v" in
      let Hrow := fresh "Hrow" in
      destruct (row0_or_None a) as [v|] eqn:Hrow; simpl in H; [|discriminate H]
  end.

(** Settles "the constructor succeeds iff ..., and raises only an index
    error" once the constructor's run is a constructor of [result]. *)
Ltac settle_run :=
  unfold mret, result_ret;
  split;
  [ split;
    [ intros [? ?]; by simplify_eq
    | intros ?; destruct_and?; first [discriminate | by eauto] ]
  | intros ? ?; by simplify_eq ].

(** ** Basic facts about the error monad and the lookup *)

Lemma mapping_getitem_PyDict {V} (d : gmap string V) k :
  mapping_getitem (PyDict d) k =
  match d !! k with Some v => Ok v | None => Raise KeyError end.
Proof. reflexivity. Qed.

Lemma mapping_getitem_NpRow {V} (row : gmap string V) k :
  mapping_getitem (NpRow row) k =
  match row !! k with Some v => Ok v | None => Raise ValueError end.
Proof. reflexivity. Qed.

Lemma init_Ok {V} (values : option (mapping V)) prom2abs output r :
  PromotedToAbsoluteMap.init values prom2abs output = Ok r →
  PromotedToAbsoluteMap._values r = values
  ∧ PromotedToAbsoluteMap._prom2abs r = prom2abs
  ∧ PromotedToAbsoluteMap._input_output r =
      match output with Some false => "input" | _ => "output" end.
Proof. intros [= <-]. by destruct output as [[]|]. Qed.

(** The lookup, by cases on the alias entry. *)
Lemma getitem_cases {V} (r : PromotedToAbsoluteMap.t V) key :
  PromotedToAbsoluteMap.getitem r key =
  match alias_entry (PromotedToAbsoluteMap._prom2abs r)
                    (PromotedToAbsoluteMap._input_output r) key with
  | None => Raise KeyError
  | Some [] => Raise IndexError
  | Some (a :: _) => values_getitem (PromotedToAbsoluteMap._values r) a
  end.
Proof.
  unfold PromotedToAbsoluteMap.getitem, alias_entry, dict_getitem.
  destruct (_ !! PromotedToAbsoluteMap._input_output r) as [half|]; simpl; [|done].
  destruct (half !! key) as [[|a rest]|]; done.
Qed.

Lemma row0_or_None_no_names {V} (a : ndarray V) :
  truthy (dtype_names a) = false → row0_or_None a = Ok None.
Proof. unfold row0_or_None. by intros ->. Qed.

Lemma row0_or_None_named {V} (a : ndarray V) row :
  truthy (dtype_names a) = true → rows a !! 0 = Some row →
  row0_or_None a = Ok (Some (NpRow row)).
Proof. unfold row0_or_None, seq_getitem. by intros -> ->. Qed.

(** ** Properties of the resolver *)

Section Resolver.
Context {V : Type}.
Implicit Types (r : PromotedToAbsoluteMap.t V) (values : option (mapping V)).
Implicit Types (m : mapping V) (prom2abs : alias_table).
Implicit Types (key a : string) (output : option bool).

Import PromotedToAbsoluteMap.

(** C1.  A resolver whose values container is a mapping that holds the
    resolved absolute key, and whose table has an entry for the promoted
    name under the resolver's direction, returns for that name the value
    the container holds at the first element of the entry. *)
Theorem getitem_returns_resolved_value r key m entry a v :
  _values r = Some m →
  alias_entry (_prom2abs r) (_input_output r) key = Some entry →
  head entry = Some a →
  m !! a = Some v →
  getitem r key = Ok v ∧ getitem r key = mapping_getitem m a.
Proof.
  intros Hvals Hentry Hhead Hv.
  rewrite getitem_cases, Hentry, Hvals.
  destruct entry as [|a' rest]; simplify_eq/=.
  unfold mapping_getitem. by rewrite Hv.
Qed.

(** C2 (amended).  A lookup fails with key-not-found exactly when the table
    has no entry for the name under the resolver's direction, or the
    container is a dict that lacks the resolved absolute key.  A row of a
    structured array that lacks the resolved name, which is the container
    the case constructors pass, fails with a value error instead, and
    [None] with a type error.  The failure is the result of the access
    itself. *)
Theorem getitem_KeyError_iff r key :
  (getitem r key = Raise KeyError ↔
     alias_entry (_prom2abs r) (_input_output r) key = None
     ∨ ∃ a (d : gmap string V),
         resolved_key (_prom2abs r) (_input_output r) key = Some a
         ∧ _values r = Some (PyDict d) ∧ d !! a = None)
  ∧ (getitem r key = Raise ValueError ↔
     ∃ a (row : gmap string V),
       resolved_key (_prom2abs r) (_input_output r) key = Some a
       ∧ _values r = Some (NpRow row) ∧ row !! a = None)
  ∧ (∀ a, resolved_key (_prom2abs r) (_input_output r) key = Some a →
          _values r = None → getitem r key = Raise TypeError).
Proof.
  rewrite getitem_cases. unfold resolved_key.
  destruct (alias_entry _ _ key) as [[|a rest]|] eqn:Hentry; simpl.
  - split_and!; [| |done].
    + split; [done|]. intros [|(a & d & ? & _)]; done.
    + split; [done|]. by intros (a & row & ? & _).
  - destruct (_values r) as [[d|row]|] eqn:Hvals; simpl.
    + rewrite mapping_getitem_PyDict.
      destruct (d !! a) as [v|] eqn:Hv; (split_and!; [| |done]).
      * split; [done|]. intros [|(a' & d' & ? & ? & ?)]; simplify_eq.
      * split; [done|]. intros (a' & row' & ? & ? & ?); simplify_eq.
      * split; [|done]. intros _. right. by exists a, d.
      * split; [done|]. intros (a' & row' & ? & ? & ?); simplify_eq.
    + rewrite mapping_getitem_NpRow.
      destruct (row !! a) as [v|] eqn:Hv; (split_and!; [| |done]).
      * split; [done|]. intros [|(a' & d' & ? & ? & ?)]; simplify_eq.
      * split; [done|]. intros (a' & row' & ? & ? & ?); simplify_eq.
      * split; [done|]. intros [|(a' & d' & ? & ? & ?)]; simplify_eq.
      * split; [|done]. intros _. by exists a, row.
    + split_and!.
      * split; [done|]. intros [|(a' & d' & ? & ? & ?)]; simplify_eq.
      * split; [done|]. intros (a' & row' & ? & ? & ?); simplify_eq.
      * done.
  - split_and!; [| |done].
    + split; [|done]. by left.
    + split; [done|]. by intros (a & row & ? & _).
Qed.

(** C3 (amended).  Over an absent or empty container construction succeeds
    and no lookup returns a value.  The failure is key-not-found when the
    table has no entry for the name, and also when the container is an
    empty dict and the entry resolves; over an absent container a
    resolved entry is a type error; an entry without a first element is an
    index error. *)
Theorem getitem_without_data values prom2abs output key :
  values = None ∨ values = Some ∅ →
  ∃ r, init values prom2abs output = Ok r
       ∧ getitem r key =
           match alias_entry prom2abs (_input_output r) key with
           | None => Raise KeyError
           | Some [] => Raise IndexError
           | Some (_ :: _) =>
               Raise (if values is None then TypeError else KeyError)
           end.
Proof.
  intros Hvals. eexists. split; [reflexivity|].
  rewrite getitem_cases. simpl.
  destruct (alias_entry _ _ key) as [[|a rest]|]; [done| |done].
  destruct Hvals as [-> | ->]; [done|].
  simpl. change (∅ : mapping V) with (PyDict (V:=V) ∅).
  rewrite mapping_getitem_PyDict. by rewrite lookup_empty.
Qed.

(** C4.  A resolver reads the table only at its own direction, which is
    "input" when built with a false [output] and "output" otherwise, also
    when [output] is omitted: two tables with the same half at that
    direction give the same lookups, and a name with an entry only in
    another half is a key-not-found failure. *)
Theorem direction_selection_exclusive values prom2abs output r key :
  init values prom2abs output = Ok r →
  _input_output r = match output with Some false => "input" | _ => "output" end
  ∧ (∀ prom2abs' r',
       init values prom2abs' output = Ok r' →
       prom2abs' !! _input_output r = prom2abs !! _input_output r →
       getitem r' key = getitem r key)
  ∧ (∀ other entry,
       alias_entry prom2abs other key = Some entry →
       alias_entry prom2abs (_input_output r) key = None →
       getitem r key = Raise KeyError).
Proof.
  intros Hr. destruct (init_Ok _ _ _ _ Hr) as (Hv & Ht & Hd).
  split_and!; [done| |].
  - intros prom2abs' r' Hr' Hhalf.
    destruct (init_Ok _ _ _ _ Hr') as (Hv' & Ht' & Hd').
    rewrite !getitem_cases. unfold alias_entry.
    rewrite Hv, Hv', Ht, Ht', Hd'. rewrite <-Hd. by rewrite Hhalf.
  - intros other entry _ Hnone. rewrite getitem_cases.
    by rewrite Ht, Hnone.
Qed.

(** C7.  Constructing a resolver succeeds for every container, absent or
    not, and every table, and stores both unchanged; a table without the
    resolver's direction, or an entry whose absolute key the container
    lacks, is met only by a later lookup, which then fails: with
    key-not-found over a dict, with a value error over an array row. *)
Theorem init_never_fails values prom2abs output :
  ∃ r, init values prom2abs output = Ok r
       ∧ _values r = values
       ∧ _prom2abs r = prom2abs
       ∧ (∀ key, prom2abs !! _input_output r = None →
                 getitem r key = Raise KeyError)
       ∧ (∀ key a m,
            resolved_key prom2abs (_input_output r) key = Some a →
            values = Some m → m !! a = None →
            getitem r key = Raise (match m with
                                   | PyDict _ => KeyError
                                   | NpRow _ => ValueError
                                   end))
       ∧ (∀ key a,
            resolved_key prom2abs (_input_output r) key = Some a →
            values = None →
            getitem r key = Raise TypeError).
Proof.
  eexists. split; [reflexivity|]. simpl. split_and!; [done|done| | |].
  - intros key Hnone. rewrite getitem_cases. unfold alias_entry. simpl.
    by rewrite Hnone.
  - intros key a m Ha -> Hm. rewrite getitem_cases. simpl.
    unfold resolved_key in Ha.
    destruct (alias_entry _ _ key) as [[|a' rest]|]; simplify_eq/=.
    unfold mapping_getitem. by rewrite Hm.
  - intros key a Ha ->. rewrite getitem_cases. simpl.
    unfold resolved_key in Ha.
    by destruct (alias_entry _ _ key) as [[|a' rest]|]; simplify_eq/=.
Qed.

End Resolver.

(** The specification's example, by C1: "x" resolves to "comp.x" and
    reads 3.5. *)
Lemma getitem_returns_resolved_value_witness :
  ∃ r : PromotedToAbsoluteMap.t float,
    PromotedToAbsoluteMap.init (Some (PyDict example_values)) example_table
      None = Ok r
    ∧ PromotedToAbsoluteMap.getitem r "x" = Ok 3.5%float.
Proof.
  eexists. split; [reflexivity|].
  refine (proj1 (getitem_returns_resolved_value _ "x" (PyDict example_values)
                   ["comp.x"] "comp.x" 3.5%float _ _ _ _));
    vm_compute; reflexivity.
Defined.

(** The second name of the example has no entry and fails. *)
Example example_lookup_y :
  (r ← PromotedToAbsoluteMap.init (Some (PyDict example_values))
         example_table None;
   PromotedToAbsoluteMap.getitem r "y") = Raise KeyError.
Proof. vm_compute. reflexivity. Qed.

(** C2 as stated fails: over an absent container the name "x" has an entry
    whose absolute key the container lacks, yet the lookup is a type error,
    not a key-not-found failure. *)
Lemma fails_iff_missing_counterexample :
  ∃ r : PromotedToAbsoluteMap.t float,
    PromotedToAbsoluteMap.init None example_table None = Ok r
    ∧ PromotedToAbsoluteMap.getitem r "x" = Raise TypeError
    ∧ ¬ fails_iff_missing r "x".
Proof.
  eexists. split; [reflexivity|]. split; [vm_compute; reflexivity|].
  intros [_ Hback].
  assert (PromotedToAbsoluteMap.getitem (V:=float)
            {| PromotedToAbsoluteMap._values := None;
               PromotedToAbsoluteMap._prom2abs := example_table;
               PromotedToAbsoluteMap._input_output := "output" |} "x"
          = Raise KeyError) as Hget.
  { apply Hback. right. exists "comp.x". split; [vm_compute; reflexivity|exact I]. }
  vm_compute in Hget. discriminate Hget.
Qed.

(** C3 as stated fails at the same input: the container is absent, the
    table has an entry for "x", and the failure is a type error. *)
Lemma no_data_is_key_error_counterexample :
  ¬ no_data_is_key_error (V:=float) None example_table None "x".
Proof.
  intros Hclaim.
  destruct (Hclaim (or_introl eq_refl)) as (r & [= <-] & Hget).
  vm_compute in Hget. discriminate Hget.
Qed.

Lemma getitem_without_data_witness :
  ∃ r : PromotedToAbsoluteMap.t float,
    PromotedToAbsoluteMap.init None example_table None = Ok r
    ∧ PromotedToAbsoluteMap.getitem r "x" = Raise TypeError.
Proof.
  destruct (getitem_without_data (V:=float) None example_table None "x"
              (or_introl eq_refl)) as (r & Hr & Hget).
  exists r. split; [exact Hr|].
  rewrite Hget. injection Hr as <-. vm_compute. reflexivity.
Defined.

Lemma direction_selection_exclusive_witness :
  ∃ r : PromotedToAbsoluteMap.t float,
    PromotedToAbsoluteMap.init (Some (PyDict example_values)) example_table
      (Some false)
      = Ok r
    ∧ PromotedToAbsoluteMap._input_output r = "input"
    ∧ PromotedToAbsoluteMap.getitem r "x" = Raise KeyError.
Proof.
  eexists. split; [reflexivity|].
  destruct (direction_selection_exclusive (Some (PyDict example_values))
              example_table
              (Some false) _ "x" eq_refl) as (Hdir & _ & Hother).
  split; [exact Hdir|].
  apply (Hother "output" ["comp.x"]); vm_compute; reflexivity.
Defined.

(** ** Properties of the case constructors *)

Section Cases.
Context {V E : Type}.
Implicit Types (f i s m : string) (c : Z) (t : float).
Implicit Types (p2a : alias_table).

Lemma DriverCase_init_Ok f c i t s m dv rs ob cn si p2a (x : DriverCase.t V) :
  DriverCase.init f c i t s m dv rs ob cn si p2a = Ok x →
  Case.init f c i t s m = Ok (DriverCase.base x)
  ∧ wraps dv p2a None (DriverCase.desvars x)
  ∧ wraps rs p2a None (DriverCase.responses x)
  ∧ wraps ob p2a None (DriverCase.objectives x)
  ∧ wraps cn p2a None (DriverCase.constraints x)
  ∧ wraps si p2a None (DriverCase.sysincludes x).
Proof.
  unfold DriverCase.init, wraps. intros H. split_rows H.
  injection H as <-. simpl. split_and!; [done|eauto..].
Qed.

Lemma SystemCase_init_Ok f c i t s m ins outs res p2a (x : SystemCase.t V) :
  SystemCase.init f c i t s m ins outs res p2a = Ok x →
  Case.init f c i t s m = Ok (SystemCase.base x)
  ∧ wraps ins p2a (Some false) (SystemCase.inputs x)
  ∧ wraps outs p2a None (SystemCase.outputs x)
  ∧ wraps res p2a None (SystemCase.residuals x).
Proof.
  unfold SystemCase.init, wraps. intros H. split_rows H.
  injection H as <-. simpl. split_and!; [done|eauto..].
Qed.

Lemma SolverCase_init_Ok f c i t s m (ae re : E) outs res p2a
    (x : SolverCase.t V E) :
  SolverCase.init f c i t s m ae re outs res p2a = Ok x →
  Case.init f c i t s m = Ok (SolverCase.base x)
  ∧ SolverCase.abs_err x = ae
  ∧ SolverCase.rel_err x = re
  ∧ wraps outs p2a None (SolverCase.outputs x)
  ∧ wraps res p2a None (SolverCase.residuals x).
Proof.
  unfold SolverCase.init, wraps. intros H. split_rows H.
  injection H as <-. simpl. split_and!; [done|done|done|eauto..].
Qed.

(** What a resolver built by the constructors holds. *)
Lemma wraps_fields (a : ndarray V) p2a output (r : PromotedToAbsoluteMap.t V) :
  wraps a p2a output r →
  PromotedToAbsoluteMap._prom2abs r = p2a
  ∧ PromotedToAbsoluteMap._input_output r =
      match output with Some false => "input" | _ => "output" end
  ∧ (truthy (dtype_names a) = false → PromotedToAbsoluteMap._values r = None)
  ∧ (∀ row, truthy (dtype_names a) = true → rows a !! 0 = Some row →
       PromotedToAbsoluteMap._values r = Some (NpRow row)).
Proof.
  intros (v & Hv & Hr). apply init_Ok in Hr as (Hvals & Ht & Hd).
  split_and!; [done|done| |].
  - intros Hn. rewrite (row0_or_None_no_names a Hn) in Hv. by simplify_eq.
  - intros row Hn Hrow. rewrite (row0_or_None_named a row Hn Hrow) in Hv.
    by simplify_eq.
Qed.

(** A system case over arrays without named fields is constructed, whatever
    their rows and the table, and none of its resolvers has a container. *)
Lemma SystemCase_init_no_fields f c i t s m (ins outs res : ndarray V) p2a :
  truthy (dtype_names ins) = false →
  truthy (dtype_names outs) = false →
  truthy (dtype_names res) = false →
  ∃ x, SystemCase.init f c i t s m ins outs res p2a = Ok x
       ∧ PromotedToAbsoluteMap._values (SystemCase.inputs x) = None
       ∧ PromotedToAbsoluteMap._values (SystemCase.outputs x) = None
       ∧ PromotedToAbsoluteMap._values (SystemCase.residuals x) = None.
Proof.
  intros H1 H2 H3. unfold SystemCase.init.
  rewrite !row0_or_None_no_names by done. simpl. by eexists.
Qed.

(** A system case over arrays that have named fields and a first row. *)
Lemma SystemCase_init_named f c i t s m (ins outs res : ndarray V) p2a :
  truthy (dtype_names ins) = true → rows ins ≠ [] →
  truthy (dtype_names outs) = true → rows outs ≠ [] →
  truthy (dtype_names res) = true → rows res ≠ [] →
  ∃ x rin rout rres,
    SystemCase.init f c i t s m ins outs res p2a = Ok x
    ∧ rows ins !! 0 = Some rin ∧ rows outs !! 0 = Some rout
    ∧ rows res !! 0 = Some rres
    ∧ SystemCase.inputs x =
        {| PromotedToAbsoluteMap._values := Some (NpRow rin);
           PromotedToAbsoluteMap._prom2abs := p2a;
           PromotedToAbsoluteMap._input_output := "input" |}
    ∧ SystemCase.outputs x =
        {| PromotedToAbsoluteMap._values := Some (NpRow rout);
           PromotedToAbsoluteMap._prom2abs := p2a;
           PromotedToAbsoluteMap._input_output := "output" |}
    ∧ SystemCase.residuals x =
        {| PromotedToAbsoluteMap._values := Some (NpRow rres);
           PromotedToAbsoluteMap._prom2abs := p2a;
           PromotedToAbsoluteMap._input_output := "output" |}.
Proof.
  intros Hn1 Hr1 Hn2 Hr2 Hn3 Hr3.
  destruct (rows ins) as [|rin ?] eqn:E1; [done|].
  destruct (rows outs) as [|rout ?] eqn:E2; [done|].
  destruct (rows res) as [|rres ?] eqn:E3; [done|].
  eexists _, rin, rout, rres. unfold SystemCase.init.
  rewrite (row0_or_None_named ins rin), (row0_or_None_named outs rout),
    (row0_or_None_named res rres) by (done || by rewrite ?E1, ?E2, ?E3).
  simpl. by split_and!.
Qed.

(** The lookup of a resolver over the first row of [a] is the direct read
    of the resolved field. *)
Lemma getitem_field_read (a : ndarray V) row p2a d key abs :
  rows a !! 0 = Some row →
  resolved_key p2a d key = Some abs →
  PromotedToAbsoluteMap.getitem
    {| PromotedToAbsoluteMap._values := Some (NpRow row);
       PromotedToAbsoluteMap._prom2abs := p2a;
       PromotedToAbsoluteMap._input_output := d |} key
  = field_read a abs.
Proof.
  intros Hrow Habs. rewrite getitem_cases. simpl.
  unfold resolved_key in Habs. unfold field_read, seq_getitem.
  rewrite Hrow. simpl.
  by destruct (alias_entry _ _ key) as [[|a' rest]|]; simplify_eq/=.
Qed.

(** C5.  A system case built from three arrays that each have named fields
    and a first row is constructed, and for every promoted name that the
    table resolves, the inputs resolver (under "input") and the outputs
    and residuals resolvers (under "output") return what reading the
    resolved field of the first row of their own source array returns. *)
Theorem SystemCase_round_trip f c i t s m (ins outs res : ndarray V) p2a :
  truthy (dtype_names ins) = true → rows ins ≠ [] →
  truthy (dtype_names outs) = true → rows outs ≠ [] →
  truthy (dtype_names res) = true → rows res ≠ [] →
  ∃ x, SystemCase.init f c i t s m ins outs res p2a = Ok x
    ∧ (∀ key abs, resolved_key p2a "input" key = Some abs →
         PromotedToAbsoluteMap.getitem (SystemCase.inputs x) key
         = field_read ins abs)
    ∧ (∀ key abs, resolved_key p2a "output" key = Some abs →
         PromotedToAbsoluteMap.getitem (SystemCase.outputs x) key
         = field_read outs abs
         ∧ PromotedToAbsoluteMap.getitem (SystemCase.residuals x) key
           = field_read res abs).
Proof.
  intros Hn1 Hr1 Hn2 Hr2 Hn3 Hr3.
  destruct (SystemCase_init_named f c i t s m ins outs res p2a)
    as (x & rin & rout & rres & Hx & H1 & H2 & H3 & Hi & Ho & Hr); [done..|].
  exists x. split; [done|]. rewrite Hi, Ho, Hr. split_and!.
  - intros key abs Habs. by apply getitem_field_read.
  - intros key abs Habs. split; by apply getitem_field_read.
Qed.

(** C6.  Whichever of the four constructors built a case, its six base
    fields are the six base arguments it was given. *)
Theorem base_fields_pass_through f c i t s m (x : any_case V E) :
  constructed_from f c i t s m x →
  Case.filename (base_of x) = f
  ∧ Case.counter (base_of x) = c
  ∧ Case.iteration_coordinate (base_of x) = i
  ∧ Case.timestamp (base_of x) = t
  ∧ Case.success (base_of x) = s
  ∧ Case.msg (base_of x) = m.
Proof.
  intros Hx.
  assert (Case.init f c i t s m = Ok (base_of x)) as [= <-]; [|done].
  destruct Hx as [x H|???????|?????|???????]; simpl.
  - done.
  - by apply DriverCase_init_Ok in H as (? & _).
  - by apply SystemCase_init_Ok in H as (? & _).
  - by apply SolverCase_init_Ok in H as (? & _).
Qed.

(** C8.  A driver case carries a [sysincludes] resolver built from its
    [sysincludes] array as the other four are from theirs: over the first
    row, or over no container when the array has no named fields, with the
    shared table and the default "output" direction. *)
Theorem DriverCase_sysincludes f c i t s m dv rs ob cn si p2a
    (x : DriverCase.t V) :
  DriverCase.init f c i t s m dv rs ob cn si p2a = Ok x →
  (wraps si p2a None (DriverCase.sysincludes x)
   ∧ PromotedToAbsoluteMap._prom2abs (DriverCase.sysincludes x) = p2a
   ∧ PromotedToAbsoluteMap._input_output (DriverCase.sysincludes x) = "output"
   ∧ (truthy (dtype_names si) = false →
      PromotedToAbsoluteMap._values (DriverCase.sysincludes x) = None)
   ∧ (∀ row, truthy (dtype_names si) = true → rows si !! 0 = Some row →
      PromotedToAbsoluteMap._values (DriverCase.sysincludes x)
      = Some (NpRow row)))
  ∧ wraps dv p2a None (DriverCase.desvars x)
  ∧ wraps rs p2a None (DriverCase.responses x)
  ∧ wraps ob p2a None (DriverCase.objectives x)
  ∧ wraps cn p2a None (DriverCase.constraints x).
Proof.
  intros Hx.
  apply DriverCase_init_Ok in Hx as (_ & Hdv & Hrs & Hob & Hcn & Hsi).
  split_and!; try done.
  - by apply wraps_fields in Hsi as (? & _).
  - by apply wraps_fields in Hsi as (_ & ? & _).
  - by apply wraps_fields in Hsi as (_ & _ & ? & _).
  - by apply wraps_fields in Hsi as (_ & _ & _ & ?).
Qed.

(** C9.  A solver case stores [abs_err] and [rel_err] as given, with no
    resolver around them, and wraps its outputs and residuals in resolvers
    of the "output" direction. *)
Theorem SolverCase_errors_pass_through f c i t s m (ae re : E) outs res p2a
    (x : SolverCase.t V E) :
  SolverCase.init f c i t s m ae re outs res p2a = Ok x →
  SolverCase.abs_err x = ae
  ∧ SolverCase.rel_err x = re
  ∧ wraps outs p2a None (SolverCase.outputs x)
  ∧ PromotedToAbsoluteMap._input_output (SolverCase.outputs x) = "output"
  ∧ wraps res p2a None (SolverCase.residuals x)
  ∧ PromotedToAbsoluteMap._input_output (SolverCase.residuals x) = "output".
Proof.
  intros Hx.
  apply SolverCase_init_Ok in Hx as (_ & Hae & Hre & Ho & Hr).
  split_and!; try done.
  - by apply wraps_fields in Ho as (_ & ? & _).
  - by apply wraps_fields in Hr as (_ & ? & _).
Qed.

(** C10.  Every resolver of a constructed case has the direction "input"
    or "output", and it is "input" only for the [inputs] resolver of a
    system case. *)
Theorem resolver_directions f c i t s m (x : any_case V E) :
  constructed_from f c i t s m x →
  ∀ g r, (g, r) ∈ resolvers_of x →
    (PromotedToAbsoluteMap._input_output r = "input"
     ∨ PromotedToAbsoluteMap._input_output r = "output")
    ∧ (PromotedToAbsoluteMap._input_output r = "input"
       ↔ (∃ sc, x = IsSystem sc) ∧ g = "inputs").
Proof.
  intros Hx g r Hin.
  destruct Hx as [x H|dv rs ob cn si p2a x H|ins outs res p2a x H
                 |ae re outs res p2a x H]; simpl in Hin.
  - by apply elem_of_nil in Hin.
  - apply DriverCase_init_Ok in H as (_ & H1 & H2 & H3 & H4 & H5).
    apply wraps_fields in H1 as (_ & ? & _), H2 as (_ & ? & _),
      H3 as (_ & ? & _), H4 as (_ & ? & _), H5 as (_ & ? & _).
    set_unfold in Hin. destruct_or!; simplify_eq; (split; [by right|]);
      (split; [congruence|by intros [[? ?] _]]).
  - apply SystemCase_init_Ok in H as (_ & H1 & H2 & H3).
    apply wraps_fields in H1 as (_ & ? & _), H2 as (_ & ? & _),
      H3 as (_ & ? & _).
    set_unfold in Hin. destruct_or!; simplify_eq.
    + split; [by left|]. split; [|done]. intros _. split; [by eexists|done].
    + split; [by right|]. split; [congruence|by intros [_ ?]].
    + split; [by right|]. split; [congruence|by intros [_ ?]].
  - apply SolverCase_init_Ok in H as (_ & _ & _ & H1 & H2).
    apply wraps_fields in H1 as (_ & ? & _), H2 as (_ & ? & _).
    set_unfold in Hin. destruct_or!; simplify_eq; (split; [by right|]);
      (split; [congruence|by intros [[? ?] _]]).
Qed.

End Cases.

(** ** The constructors at concrete records *)

Lemma SystemCase_round_trip_witness :
  ∃ x : SystemCase.t float,
    SystemCase.init "cases.sql" 7 "rank0:root._solve_nonlinear|7" 1.5 "1" ""
      example_array example_array example_array example_table = Ok x
    ∧ PromotedToAbsoluteMap.getitem (SystemCase.outputs x) "x" = Ok 3.5%float
    ∧ PromotedToAbsoluteMap.getitem (SystemCase.residuals x) "x"
      = field_read example_array "comp.x".
Proof.
  destruct (SystemCase_round_trip "cases.sql" 7 "rank0:root._solve_nonlinear|7"
              1.5 "1" "" example_array example_array example_array
              example_table)
    as (x & Hx & _ & Hout); [(reflexivity || discriminate)..|].
  exists x. split; [exact Hx|].
  destruct (Hout "x" "comp.x") as [Ho Hr]; [vm_compute; reflexivity|].
  split; [rewrite Ho; vm_compute; reflexivity|exact Hr].
Defined.

Lemma base_fields_pass_through_witness :
  ∃ x : DriverCase.t float,
    DriverCase.init "cases.sql" 3 "rank0:Driver|3" 1.5 "1" ""
      example_array example_no_fields example_array example_no_fields
      example_no_fields example_table = Ok x
    ∧ Case.filename (DriverCase.base x) = "cases.sql"
    ∧ Case.counter (DriverCase.base x) = 3%Z
    ∧ Case.timestamp (DriverCase.base x) = 1.5%float.
Proof.
  eexists. split; [reflexivity|].
  destruct (base_fields_pass_through (V:=float) (E:=float)
              "cases.sql" 3 "rank0:Driver|3" 1.5 "1" "" (IsDriver _)
              (built_DriverCase _ _ _ _ _ _ example_array example_no_fields
                 example_array example_no_fields example_no_fields
                 example_table _ eq_refl))
    as (Hf & Hc & _ & Ht & _).
  split_and!; [exact Hf|exact Hc|exact Ht].
Defined.

Lemma DriverCase_sysincludes_witness :
  ∃ x : DriverCase.t float,
    DriverCase.init "cases.sql" 3 "rank0:Driver|3" 1.5 "1" ""
      example_array example_no_fields example_array example_no_fields
      example_no_fields example_table = Ok x
    ∧ PromotedToAbsoluteMap._values (DriverCase.sysincludes x) = None
    ∧ PromotedToAbsoluteMap._input_output (DriverCase.sysincludes x) = "output".
Proof.
  eexists. split; [reflexivity|].
  destruct (DriverCase_sysincludes (V:=float)
              "cases.sql" 3 "rank0:Driver|3" 1.5 "1" ""
              example_array example_no_fields example_array example_no_fields
              example_no_fields example_table _ eq_refl)
    as ((_ & _ & Hd & Hnone & _) & _).
  split; [exact (Hnone eq_refl)|exact Hd].
Defined.

Lemma SolverCase_errors_pass_through_witness :
  ∃ x : SolverCase.t float float,
    SolverCase.init "cases.sql" 9 "rank0:root.NewtonSolver|2" 1.5 "1" ""
      0.125%float 0.5%float example_array example_array example_table = Ok x
    ∧ SolverCase.abs_err x = 0.125%float
    ∧ SolverCase.rel_err x = 0.5%float
    ∧ PromotedToAbsoluteMap._input_output (SolverCase.outputs x) = "output".
Proof.
  eexists. split; [reflexivity|].
  destruct (SolverCase_errors_pass_through (V:=float) (E:=float)
              "cases.sql" 9 "rank0:root.NewtonSolver|2" 1.5 "1" ""
              0.125%float 0.5%float example_array example_array example_table
              _ eq_refl)
    as (Hae & Hre & _ & Hd & _).
  split_and!; [exact Hae|exact Hre|exact Hd].
Defined.

Lemma resolver_directions_witness :
  ∃ x : SystemCase.t float,
    SystemCase.init "cases.sql" 7 "rank0:root._solve_nonlinear|7" 1.5 "1" ""
      example_array example_array example_no_fields example_table = Ok x
    ∧ PromotedToAbsoluteMap._input_output (SystemCase.inputs x) = "input"
    ∧ PromotedToAbsoluteMap._input_output (SystemCase.outputs x) ≠ "input".
Proof.
  eexists. split; [reflexivity|].
  pose proof (resolver_directions (V:=float) (E:=float)
                "cases.sql" 7 "rank0:root._solve_nonlinear|7" 1.5 "1" ""
                (IsSystem _)
                (built_SystemCase _ _ _ _ _ _ example_array example_array
                   example_no_fields example_table _ eq_refl)) as Hdir.
  split.
  - destruct (Hdir "inputs" _ (list_elem_of_here _ _)) as [_ [_ Hback]].
    apply Hback. split; [by eexists|reflexivity].
  - destruct (Hdir "outputs" _
                (list_elem_of_further _ _ _ (list_elem_of_here _ _)))
      as [_ [Hfwd _]].
    intros Hi. destruct (Hfwd Hi) as [_ Hg]. discriminate Hg.
Defined.

(** ** Further properties of the lookup *)

Section Lookup.
Context {V : Type}.
Implicit Types (r : PromotedToAbsoluteMap.t V) (values : option (mapping V)).
Implicit Types (m : mapping V) (prom2abs : alias_table).
Implicit Types (key a d : string).

Import PromotedToAbsoluteMap.

(** X1.  A lookup returns [v] exactly when the entry of the name has a
    first element and the container is a mapping that holds [v] there. *)
Theorem getitem_Ok_iff r key v :
  getitem r key = Ok v ↔
  ∃ a m, resolved_key (_prom2abs r) (_input_output r) key = Some a
         ∧ _values r = Some m ∧ m !! a = Some v.
Proof.
  rewrite getitem_cases. unfold resolved_key.
  destruct (alias_entry _ _ key) as [[|a rest]|]; simpl.
  - split; [done|]. by intros (a & m & ? & _).
  - destruct (_values r) as [m|]; simpl.
    + unfold mapping_getitem. split.
      * destruct (m !! a) as [v'|] eqn:Hv; [|done]. intros [= ->]. by exists a, m.
      * intros (a' & m' & ? & ? & Hv). simplify_eq. by rewrite Hv.
    + split; [done|]. by intros (a' & m' & _ & ? & _).
  - split; [done|]. by intros (a & m & ? & _).
Qed.

(** X2.  A lookup raises an index error exactly when the name has an entry
    and the entry is an empty tuple. *)
Theorem getitem_IndexError_iff r key :
  getitem r key = Raise IndexError ↔
  alias_entry (_prom2abs r) (_input_output r) key = Some [].
Proof.
  rewrite getitem_cases.
  destruct (alias_entry _ _ key) as [[|a rest]|]; simpl; [done| |done].
  destruct (_values r) as [m|]; simpl; [|done].
  unfold mapping_getitem. by destruct (m !! a), m.
Qed.

(** X3.  A lookup raises a type error exactly when the container is [None]
    and the entry of the name has a first element. *)
Theorem getitem_TypeError_iff r key :
  getitem r key = Raise TypeError ↔
  _values r = None
  ∧ ∃ a, resolved_key (_prom2abs r) (_input_output r) key = Some a.
Proof.
  rewrite getitem_cases. unfold resolved_key.
  destruct (alias_entry _ _ key) as [[|a rest]|]; simpl.
  - split; [done|]. by intros (_ & a & ?).
  - destruct (_values r) as [m|]; simpl.
    + unfold mapping_getitem. split; [by destruct (m !! a), m|].
      by intros (? & _).
    + split; [|done]. intros _. split; [done|]. by exists a.
  - split; [done|]. by intros (_ & a & ?).
Qed.

(** X4.  When the table gives no absolute key for the name, the lookup
    fails before the container is subscripted: the failure is a
    key-not-found or an index error, and it is the same over every
    container, [None] included. *)
Theorem getitem_alias_failure_first r key values :
  resolved_key (_prom2abs r) (_input_output r) key = None →
  getitem {| _values := values;
             _prom2abs := _prom2abs r;
             _input_output := _input_output r |} key
  = getitem r key
  ∧ (getitem r key = Raise KeyError ∨ getitem r key = Raise IndexError).
Proof.
  intros Hnone. rewrite !getitem_cases. simpl. unfold resolved_key in Hnone.
  destruct (alias_entry _ _ key) as [[|a rest]|]; simplify_eq/=; auto.
Qed.

(** X5.  Only the first element of an entry is read: two tables whose
    entries for the name start with the same absolute name give the same
    lookup, the container subscripted at that name. *)
Theorem getitem_reads_first_element values prom2abs prom2abs' d key a rest rest' :
  alias_entry prom2abs d key = Some (a :: rest) →
  alias_entry prom2abs' d key = Some (a :: rest') →
  getitem {| _values := values; _prom2abs := prom2abs; _input_output := d |} key
  = getitem {| _values := values; _prom2abs := prom2abs'; _input_output := d |} key
  ∧ getitem {| _values := values; _prom2abs := prom2abs; _input_output := d |} key
    = values_getitem values a.
Proof.
  intros H1 H2. rewrite !getitem_cases. simpl. by rewrite H1, H2.
Qed.

(** X6.  Two promoted names that resolve to the same absolute name give the
    same lookup, value or failure. *)
Theorem getitem_same_absolute r key key' a :
  resolved_key (_prom2abs r) (_input_output r) key = Some a →
  resolved_key (_prom2abs r) (_input_output r) key' = Some a →
  getitem r key = getitem r key'.
Proof.
  unfold resolved_key. intros H1 H2. rewrite !getitem_cases.
  destruct (alias_entry _ _ key) as [[|a1 rest1]|]; simplify_eq/=.
  destruct (alias_entry _ _ key') as [[|a2 rest2]|]; by simplify_eq/=.
Qed.

End Lookup.

Lemma getitem_alias_failure_first_witness :
  PromotedToAbsoluteMap.getitem
    {| PromotedToAbsoluteMap._values := Some (PyDict example_values);
       PromotedToAbsoluteMap._prom2abs := example_table;
       PromotedToAbsoluteMap._input_output := "input" |} "x"
  = PromotedToAbsoluteMap.getitem
      {| PromotedToAbsoluteMap._values := None;
         PromotedToAbsoluteMap._prom2abs := example_table;
         PromotedToAbsoluteMap._input_output := "input" |} "x".
Proof.
  refine (proj1 (getitem_alias_failure_first
                   {| PromotedToAbsoluteMap._values := None;
                      PromotedToAbsoluteMap._prom2abs := example_table;
                      PromotedToAbsoluteMap._input_output := "input" |}
                   "x" (Some (PyDict example_values)) _)).
  vm_compute. reflexivity.
Defined.

Lemma getitem_reads_first_element_witness :
  PromotedToAbsoluteMap.getitem
    {| PromotedToAbsoluteMap._values := Some (PyDict example_values);
       PromotedToAbsoluteMap._prom2abs := example_table;
       PromotedToAbsoluteMap._input_output := "output" |} "x"
  = PromotedToAbsoluteMap.getitem
      {| PromotedToAbsoluteMap._values := Some (PyDict example_values);
         PromotedToAbsoluteMap._prom2abs := example_aliases;
         PromotedToAbsoluteMap._input_output := "output" |} "x".
Proof.
  refine (proj1 (getitem_reads_first_element (Some (PyDict example_values))
                   example_table example_aliases "output" "x" "comp.x"
                   [] ["sub.comp.x"] _ _));
    vm_compute; reflexivity.
Defined.

Lemma getitem_same_absolute_witness :
  PromotedToAbsoluteMap.getitem
    {| PromotedToAbsoluteMap._values := Some (PyDict example_values);
       PromotedToAbsoluteMap._prom2abs := example_aliases;
       PromotedToAbsoluteMap._input_output := "output" |} "x"
  = PromotedToAbsoluteMap.getitem
      {| PromotedToAbsoluteMap._values := Some (PyDict example_values);
         PromotedToAbsoluteMap._prom2abs := example_aliases;
         PromotedToAbsoluteMap._input_output := "output" |} "y".
Proof.
  refine (getitem_same_absolute
            {| PromotedToAbsoluteMap._values := Some (PyDict example_values);
               PromotedToAbsoluteMap._prom2abs := example_aliases;
               PromotedToAbsoluteMap._input_output := "output" |}
            "x" "y" "comp.x" _ _);
    vm_compute; reflexivity.
Defined.

(** ** Further properties of the constructors *)

Section Construction.
Context {V E : Type}.
Implicit Types (f i s m : string) (c : Z) (t : float).
Implicit Types (p2a : alias_table) (a : ndarray V).

(** The value of [a[0] if a.dtype.names else None]. *)
Lemma row0_or_None_result a :
  row0_or_None a =
  if has_row0 a
  then Ok (if truthy (dtype_names a) then NpRow <$> rows a !! 0 else None)
  else Raise IndexError.
Proof.
  unfold row0_or_None, has_row0, seq_getitem.
  destruct (truthy (dtype_names a)); [|done].
  by destruct (rows a).
Qed.

Lemma row0_or_None_same a a' :
  same_row0 a a' → row0_or_None a' = row0_or_None a.
Proof.
  intros [Hn Hr]. unfold row0_or_None, seq_getitem. rewrite Hn.
  destruct (truthy (dtype_names a)); [|done]. by rewrite Hr.
Qed.

(** X7.  Constructing a system case succeeds exactly when each of its three
    arrays has no named fields or has a first row; otherwise it raises an
    index error, and it raises nothing else. *)
Theorem SystemCase_init_succeeds_iff f c i t s m (ins outs res : ndarray V) p2a :
  ((∃ x, SystemCase.init f c i t s m ins outs res p2a = Ok x) ↔
     has_row0 ins = true ∧ has_row0 outs = true ∧ has_row0 res = true)
  ∧ (∀ e, SystemCase.init f c i t s m ins outs res p2a = Raise e →
          e = IndexError).
Proof.
  unfold SystemCase.init. rewrite !row0_or_None_result.
  destruct (has_row0 ins), (has_row0 outs), (has_row0 res); simpl;
    settle_run.
Qed.

(** X8.  Constructing a driver case succeeds exactly when each of its five
    arrays has no named fields or has a first row; otherwise it raises an
    index error, and it raises nothing else. *)
Theorem DriverCase_init_succeeds_iff f c i t s m (dv rs ob cn si : ndarray V) p2a :
  ((∃ x, DriverCase.init f c i t s m dv rs ob cn si p2a = Ok x) ↔
     has_row0 dv = true ∧ has_row0 rs = true ∧ has_row0 ob = true
     ∧ has_row0 cn = true ∧ has_row0 si = true)
  ∧ (∀ e, DriverCase.init f c i t s m dv rs ob cn si p2a = Raise e →
          e = IndexError).
Proof.
  unfold DriverCase.init. rewrite !row0_or_None_result.
  destruct (has_row0 dv), (has_row0 rs), (has_row0 ob), (has_row0 cn),
    (has_row0 si); simpl; settle_run.
Qed.

(** X9.  Constructing a solver case succeeds exactly when each of its two
    arrays has no named fields or has a first row, whatever the two error
    values are; otherwise it raises an index error, and nothing else. *)
Theorem SolverCase_init_succeeds_iff f c i t s m (ae re : E)
    (outs res : ndarray V) p2a :
  ((∃ x, SolverCase.init f c i t s m ae re outs res p2a = Ok x) ↔
     has_row0 outs = true ∧ has_row0 res = true)
  ∧ (∀ e, SolverCase.init f c i t s m ae re outs res p2a = Raise e →
          e = IndexError).
Proof.
  unfold SolverCase.init. rewrite !row0_or_None_result.
  destruct (has_row0 outs), (has_row0 res); simpl; settle_run.
Qed.

End Construction.

(** ** What the constructors read, and what their resolvers return *)

Section Built.
Context {V E : Type}.
Implicit Types (f i s m : string) (c : Z) (t : float).
Implicit Types (p2a : alias_table) (a : ndarray V).

(** X10.  The constructors read of each array only the truth value of
    [dtype.names] and, when it is true, the first row: arrays that agree on
    these give the same case, or the same failure, whatever their field
    names and further rows are. *)
Theorem constructors_read_first_row f c i t s m (ae re : E)
    (a1 a2 a3 a4 a5 a1' a2' a3' a4' a5' : ndarray V) p2a :
  same_row0 a1 a1' → same_row0 a2 a2' → same_row0 a3 a3' →
  same_row0 a4 a4' → same_row0 a5 a5' →
  DriverCase.init f c i t s m a1' a2' a3' a4' a5' p2a
  = DriverCase.init f c i t s m a1 a2 a3 a4 a5 p2a
  ∧ SystemCase.init f c i t s m a1' a2' a3' p2a
    = SystemCase.init f c i t s m a1 a2 a3 p2a
  ∧ SolverCase.init f c i t s m ae re a1' a2' p2a
    = SolverCase.init f c i t s m ae re a1 a2 p2a.
Proof.
  intros H1 H2 H3 H4 H5.
  unfold DriverCase.init, SystemCase.init, SolverCase.init.
  by rewrite (row0_or_None_same _ _ H1), (row0_or_None_same _ _ H2),
    (row0_or_None_same _ _ H3), (row0_or_None_same _ _ H4),
    (row0_or_None_same _ _ H5).
Qed.

(** X11.  Every resolver of a driver, system or solver case holds the one
    table the constructor was given. *)
Theorem resolvers_share_table p2a (x : any_case V E) :
  constructed_over p2a x →
  ∀ g r, (g, r) ∈ resolvers_of x → PromotedToAbsoluteMap._prom2abs r = p2a.
Proof.
  intros Hx g r Hin.
  destruct Hx as [f c i t s m dv rs ob cn si x H
                 |f c i t s m ins outs res x H
                 |f c i t s m ae re outs res x H]; simpl in Hin.
  - apply DriverCase_init_Ok in H as (_ & H1 & H2 & H3 & H4 & H5).
    apply wraps_fields in H1 as (? & _), H2 as (? & _), H3 as (? & _),
      H4 as (? & _), H5 as (? & _).
    set_unfold in Hin. destruct_or!; by simplify_eq.
  - apply SystemCase_init_Ok in H as (_ & H1 & H2 & H3).
    apply wraps_fields in H1 as (? & _), H2 as (? & _), H3 as (? & _).
    set_unfold in Hin. destruct_or!; by simplify_eq.
  - apply SolverCase_init_Ok in H as (_ & _ & _ & H1 & H2).
    apply wraps_fields in H1 as (? & _), H2 as (? & _).
    set_unfold in Hin. destruct_or!; by simplify_eq.
Qed.

(** X12.  A resolver built by a constructor over the array [a] returns [v]
    for a promoted name exactly when [a] has named fields, the table
    resolves the name under the resolver's direction, and the first row of
    [a] holds [v] at the resolved name. *)
Theorem built_getitem_Ok_iff a p2a output (r : PromotedToAbsoluteMap.t V) key v :
  wraps a p2a output r →
  PromotedToAbsoluteMap.getitem r key = Ok v ↔
  truthy (dtype_names a) = true
  ∧ ∃ row abs,
      rows a !! 0 = Some row
      ∧ resolved_key p2a
          (match output with Some false => "input" | _ => "output" end) key
        = Some abs
      ∧ row !! abs = Some v.
Proof.
  intros (val & Hrow & Hinit).
  apply init_Ok in Hinit as (Hv & Ht & Hd).
  rewrite row0_or_None_result in Hrow.
  destruct (has_row0 a); [|done]. injection Hrow as <-.
  rewrite getitem_cases, Hv, Ht, Hd. unfold resolved_key.
  destruct (alias_entry _ _ key) as [[|abs rest]|]; simpl.
  - split; [done|]. by intros (_ & row & abs & _ & ? & _).
  - destruct (truthy (dtype_names a)); simpl.
    + destruct (rows a !! 0) as [row|] eqn:Hr; simpl.
      * rewrite mapping_getitem_NpRow. split.
        -- destruct (row !! abs) eqn:Hf; [|done]. intros [= ->].
           split; [done|]. by exists row, abs.
        -- intros (_ & row' & abs' & ? & ? & Hf). simplify_eq. by rewrite Hf.
      * split; [done|]. by intros (_ & row' & abs' & ? & _).
    + split; [done|]. by intros (? & _).
  - split; [done|]. by intros (_ & row & abs & _ & ? & _).
Qed.

(** X13.  How a resolver built by a constructor over the array [a] fails:
    with key-not-found exactly when the table has no entry for the name
    under the resolver's direction; with a value error exactly when [a] has
    named fields and its first row lacks the resolved name; with a type
    error exactly when [a] has no named fields and the entry has a first
    element. *)
Theorem built_getitem_failure_kinds a p2a output
    (r : PromotedToAbsoluteMap.t V) key :
  wraps a p2a output r →
  (PromotedToAbsoluteMap.getitem r key = Raise KeyError ↔
     alias_entry p2a
       (match output with Some false => "input" | _ => "output" end) key
     = None)
  ∧ (PromotedToAbsoluteMap.getitem r key = Raise ValueError ↔
     truthy (dtype_names a) = true
     ∧ ∃ row abs,
         rows a !! 0 = Some row
         ∧ resolved_key p2a
             (match output with Some false => "input" | _ => "output" end) key
           = Some abs
         ∧ row !! abs = None)
  ∧ (PromotedToAbsoluteMap.getitem r key = Raise TypeError ↔
     truthy (dtype_names a) = false
     ∧ ∃ abs,
         resolved_key p2a
           (match output with Some false => "input" | _ => "output" end) key
         = Some abs).
Proof.
  intros (val & Hrow & Hinit).
  apply init_Ok in Hinit as (Hv & Ht & Hd).
  rewrite row0_or_None_result in Hrow.
  destruct (has_row0 a) eqn:Hhas; [|done]. injection Hrow as <-.
  rewrite getitem_cases, Hv, Ht, Hd. unfold resolved_key.
  destruct (alias_entry _ _ key) as [[|abs rest]|]; simpl.
  - split_and!; (split; [done|]).
    + done.
    + by intros (_ & row & abs & _ & ? & _).
    + by intros (_ & abs & ?).
  - unfold has_row0 in Hhas.
    destruct (truthy (dtype_names a)); simpl in *.
    + destruct (rows a) as [|row others]; [done|]. simpl.
      rewrite mapping_getitem_NpRow.
      destruct (row !! abs) as [v|] eqn:Hf; split_and!.
      * done.
      * split; [done|]. intros (_ & row' & abs' & ? & ? & ?). simplify_eq.
      * split; [done|]. by intros (? & _).
      * done.
      * split; [|done]. intros _. split; [done|]. by exists row, abs.
      * split; [done|]. by intros (? & _).
    + split_and!.
      * done.
      * split; [done|]. by intros (? & _).
      * split; [|done]. intros _. split; [done|]. by exists abs.
  - split_and!.
    + done.
    + split; [done|]. by intros (_ & row & abs & _ & ? & _).
    + split; [done|]. by intros (_ & abs & ?).
Qed.

End Built.

Lemma constructors_read_first_row_witness :
  SystemCase.init "cases.sql" 7 "rank0:root._solve_nonlinear|7" 1.5 "1" ""
    example_two_rows example_two_rows example_two_rows example_table
  = SystemCase.init "cases.sql" 7 "rank0:root._solve_nonlinear|7" 1.5 "1" ""
      example_array example_array example_array example_table.
Proof.
  refine (proj1 (proj2 (constructors_read_first_row
            "cases.sql" 7 "rank0:root._solve_nonlinear|7" 1.5 "1" ""
            0.125%float 0.5%float
            example_array example_array example_array example_array
            example_array
            example_two_rows example_two_rows example_two_rows
            example_two_rows example_two_rows example_table _ _ _ _ _)));
    (split; [reflexivity|intros _; reflexivity]).
Defined.

Lemma resolvers_share_table_witness :
  ∃ x : DriverCase.t float,
    DriverCase.init "cases.sql" 3 "rank0:Driver|3" 1.5 "1" ""
      example_array example_no_fields example_array example_no_fields
      example_no_fields example_table = Ok x
    ∧ PromotedToAbsoluteMap._prom2abs (DriverCase.responses x) = example_table.
Proof.
  eexists. split; [reflexivity|].
  refine (resolvers_share_table (V:=float) (E:=float) example_table
            (IsDriver _)
            (over_DriverCase _ "cases.sql" 3 "rank0:Driver|3" 1.5 "1" ""
               example_array example_no_fields example_array
               example_no_fields example_no_fields _ eq_refl)
            "responses" _ _).
  apply list_elem_of_further, list_elem_of_here.
Defined.

Lemma built_getitem_Ok_iff_witness :
  PromotedToAbsoluteMap.getitem
    {| PromotedToAbsoluteMap._values := Some (NpRow example_values);
       PromotedToAbsoluteMap._prom2abs := example_aliases;
       PromotedToAbsoluteMap._input_output := "output" |} "y"
  = Ok 3.5%float.
Proof.
  refine (proj2 (built_getitem_Ok_iff example_two_rows example_aliases None
                   _ "y" 3.5%float _) _).
  - exists (Some (NpRow example_values)). split; reflexivity.
  - split; [reflexivity|].
    exists example_values, "comp.x".
    split_and!; vm_compute; reflexivity.
Defined.

Lemma built_getitem_failure_kinds_witness :
  PromotedToAbsoluteMap.getitem
    {| PromotedToAbsoluteMap._values :=
         Some (NpRow {[ "comp.z" := 1.5%float ]});
       PromotedToAbsoluteMap._prom2abs := example_table;
       PromotedToAbsoluteMap._input_output := "output" |} "x"
  = Raise ValueError.
Proof.
  refine (proj2 (proj1 (proj2 (built_getitem_failure_kinds example_other_field
                                 example_table None _ "x" _))) _).
  - exists (Some (NpRow {[ "comp.z" := 1.5%float ]})). split; reflexivity.
  - split; [reflexivity|].
    exists {[ "comp.z" := 1.5%float ]}, "comp.x".
    split_and!; vm_compute; reflexivity.
Defined.
